(** * entropy.base: slug assignment and generic keyed attributes

    A shallow embedding of [BaseSlugMixin] and [AttributeMixin] from
    [entropy/base/__init__.py].  Python objects that are mutated in place
    ([self], the tables behind [model.objects] and [self.attributes]) are
    threaded through a state-and-exception monad: an exception leaves the
    state as it was when it was raised, since neither method opens a
    transaction. *)

From Stdlib Require Import Ascii.
From stdpp Require Import gmap strings list fin_maps pretty.

(** ** Python outcomes *)

(** The exception classes the two mixins can meet. *)
Inductive exn : Set :=
  | UnboundLocalError
  | AttributeError
  | KeyError
  | DoesNotExist
  | MultipleObjectsReturned
  | IntegrityError.

Global Instance exn_eq_dec : EqDecision exn.
Proof. solve_decision. Defined.

(** A call returns, raises, or (for the [while] loop only) is still running
    when the iteration budget of the model is used up. *)
Inductive outcome (A : Type) : Type :=
  | Return (a : A)
  | Raise (e : exn)
  | Diverge.
Arguments Return {A} a.
Arguments Raise {A} e.
Arguments Diverge {A}.

Definition M (S A : Type) : Type := S → outcome A * S.

Global Instance M_ret {S} : MRet (M S) := λ A a s, (Return a, s).
Global Instance M_bind {S} : MBind (M S) := λ A B k m s,
  match m s with
  | (Return a, s') => k a s'
  | (Raise e, s') => (Raise e, s')
  | (Diverge, s') => (Diverge, s')
  end.

Definition raise {S A} (e : exn) : M S A := λ s, (Raise e, s).
Definition diverge {S A} : M S A := λ s, (Diverge, s).
Definition gets {S A} (f : S → A) : M S A := λ s, (Return (f s), s).
Definition modify {S} (f : S → S) : M S unit := λ s, (Return tt, f s).

(** ** Data model of the slug mixin *)

(** [hasattr(self, f)] and [getattr(self, f, None)] for the optional [title]
    and [name] fields: a concrete type either lacks the field, or has it with
    a value that may be [None]. *)
Inductive field : Set :=
  | NoField
  | Field (v : option string).

Definition hasattr (f : field) : bool :=
  match f with NoField => false | Field _ => true end.

Definition getattr_default_None (f : field) : option string :=
  match f with NoField => None | Field v => v end.

Module Entity.
Record t : Set := mk {
  id : option Z;
  slug : option string;
  title : field;
  name : field
}.
Definition set_slug (s : option string) (e : t) : t :=
  mk (id e) s (title e) (name e).
Definition set_id (i : option Z) (e : t) : t :=
  mk i (slug e) (title e) (name e).
Definition set_title (f : field) (e : t) : t :=
  mk (id e) (slug e) f (name e).
Definition set_name (f : field) (e : t) : t :=
  mk (id e) (slug e) (title e) f.
End Entity.

Global Instance field_eq_dec : EqDecision field.
Proof. solve_decision. Defined.
Global Instance Entity_eq_dec : EqDecision Entity.t.
Proof. solve_decision. Defined.

(** Python truth value of [self.id]: [None] and [0] are false. *)
Definition truthy_id (i : option Z) : bool :=
  match i with
  | None => false
  | Some z => negb (z =? 0)%Z
  end.

(** Python truth value of [self.slug]: [None] and the empty string are false. *)
Definition truthy_slug (s : option string) : bool :=
  match s with
  | None | Some EmptyString => false
  | Some _ => true
  end.

(** [SlugMixin] declares [slug = SlugField()], [SlugUniqueMixin] declares
    [slug = SlugField(unique=True)]; both inherit [BaseSlugMixin]. *)
Inductive slug_mixin : Set := SlugMixin | SlugUniqueMixin.

Definition unique (v : slug_mixin) : bool :=
  match v with SlugMixin => false | SlugUniqueMixin => true end.

(** The state [save] works on: the object [self] and the table behind
    [self.__class__.objects], keyed by primary key. *)
Record slug_state : Set := SlugState {
  self : Entity.t;
  objects : gmap Z Entity.t
}.

(** [model.objects.filter(slug=slug).exists()] *)
Definition filter_slug_exists (rows : gmap Z Entity.t) (slug : string) : bool :=
  existsb (λ r, bool_decide (Entity.slug r = Some slug)) (map_to_list rows).*2.

(** The value of the local variable [sluggable] in [save], which is bound only
    by the two [hasattr] branches. *)
Inductive local (A : Type) : Type :=
  | Unbound
  | Bound (a : A).
Arguments Unbound {A}.
Arguments Bound {A} a.

(** ** The storage layer *)

(** The next value of the auto-increment primary key. *)
Definition next_id {A} (rows : gmap Z A) : Z :=
  (1 + foldr Z.max 0 (map_to_list rows).*1)%Z.

(** Whether another row already carries the slug of [e] (the unique index
    of [SlugUniqueMixin]; SQL [NULL]s never collide). *)
Definition slug_collides (rows : gmap Z Entity.t) (e : Entity.t) : bool :=
  match Entity.slug e with
  | None => false
  | Some s =>
      existsb (λ '(i, r), bool_decide (Some i ≠ Entity.id e)
                          && bool_decide (Entity.slug r = Some s))
              (map_to_list rows)
  end.

(** [super(BaseSlugMixin, self).save()], the framework's [Model.save]: writes
    the row under the primary key of [self], drawing a key for an object that
    has none, and refuses a duplicate under a unique index. *)
Definition super_save (v : slug_mixin) : M slug_state unit := λ st,
  let e := self st in
  if unique v && slug_collides (objects st) e then (Raise IntegrityError, st)
  else
    match Entity.id e with
    | Some i => (Return tt, SlugState e (<[i := e]> (objects st)))
    | None =>
        let i := next_id (objects st) in
        let e' := Entity.set_id (Some i) e in
        (Return tt, SlugState e' (<[i := e']> (objects st)))
    end.

(** ** BaseSlugMixin *)

Section BaseSlugMixin.
(** [django.utils.text.slugify], a function of the framework. *)
Variable slugify : string → string.

(** The body of [while model.objects.filter(slug=slug).exists(): ...], one
    unit of [fuel] per evaluation of the loop condition. *)
Fixpoint slugify_loop (fuel : nat) (rows : gmap Z Entity.t)
    (slug_prefix : string) (index : nat) (slug : string) : option string :=
  match fuel with
  | O => None
  | S fuel' =>
      if filter_slug_exists rows slug then
        let index := index + 1 in
        let slug := slug_prefix +:+ "-" +:+ pretty index in
        slugify_loop fuel' rows slug_prefix index slug
      else Some slug
  end.

(** [slugify_uniquely(self, sluggable)].  The loop is given one more
    evaluation of its condition than the table has rows;
    [slugify_uniquely_total] shows the budget is never used up. *)
Definition slugify_uniquely (rows : gmap Z Entity.t) (sluggable : string)
    : option string :=
  let slug_prefix := slugify sluggable in
  slugify_loop (S (size rows)) rows slug_prefix 0 slug_prefix.

(** The value of [sluggable] when line 102 reads it. *)
Definition sluggable_of (e : Entity.t) : local (option string) :=
  let sluggable := Unbound in
  let sluggable :=
    if hasattr (Entity.title e)
    then Bound (getattr_default_None (Entity.title e)) else sluggable in
  let sluggable :=
    if hasattr (Entity.name e)
    then Bound (getattr_default_None (Entity.name e)) else sluggable in
  sluggable.

(** [BaseSlugMixin.save] *)
Definition save (v : slug_mixin) : M slug_state unit :=
  e ← gets self;
  (if negb (truthy_id (Entity.id e)) && negb (truthy_slug (Entity.slug e))
   then
     match sluggable_of e with
     | Unbound => raise UnboundLocalError
     | Bound (Some sluggable) =>
         rows ← gets objects;
         match slugify_uniquely rows sluggable with
         | Some slug =>
             modify (λ st, SlugState (Entity.set_slug (Some slug) (self st))
                                     (objects st))
         | None => diverge
         end
     | Bound None => mret tt
     end
   else mret tt);;
  super_save v.

(** Creating entities one after the other: each object is saved against
    the table the previous saves left.  Returns the objects as they are
    after their [save], with the outcome of each call. *)
Fixpoint create_all (v : slug_mixin) (es : list Entity.t)
    (rows : gmap Z Entity.t) : list (outcome unit * Entity.t) * gmap Z Entity.t :=
  match es with
  | [] => ([], rows)
  | e :: es' =>
      let '(o, st) := save v (SlugState e rows) in
      let '(rs, rows') := create_all v es' (objects st) in
      ((o, self st) :: rs, rows')
  end.

(** An object about to be created, whose title or name normalizes to
    [base]: no primary key, no slug, and a string in [sluggable]. *)
Definition new_with_base (base : string) (e : Entity.t) : bool :=
  bool_decide (Entity.id e = None) && negb (truthy_slug (Entity.slug e))
  && match sluggable_of e with
     | Bound (Some sluggable) => bool_decide (slugify sluggable = base)
     | _ => false
     end.

(** The candidates the loop tries, by index. *)
Definition candidate (slug_prefix : string) (index : nat) : string :=
  match index with
  | O => slug_prefix
  | S _ => slug_prefix +:+ "-" +:+ pretty index
  end.
End BaseSlugMixin.

(** ** Data model of the attribute mixin *)

(** The Python values [__getitem__] can hand back: a stored attribute value
    is text; [getattr] may also find numbers, [None], bound methods or the
    related manager. *)
Inductive pyval : Set :=
  | PyNone
  | PyInt (z : Z)
  | PyStr (s : string)
  | PyBoundMethod (f : string)
  | PyRelatedManager.

Global Instance pyval_eq_dec : EqDecision pyval.
Proof. solve_decision. Defined.

(** Modelled from the spec: the [Attribute] model of [entropy.base.models],
    which [__setitem__] imports and whose declaration is not in this file:
    "a (owner-entity-reference, name, value) triple stored independently of
    its owner", the reference being the (type, id) pair of [GenericMixin]. *)
Module Attribute.
Record t : Set := mk {
  pk : option Z;
  content_type : string;
  object_id : Z;
  name : string;
  value : string
}.
Definition set_pk (i : option Z) (a : t) : t :=
  mk i (content_type a) (object_id a) (name a) (value a).
Definition set_value (v : string) (a : t) : t :=
  mk (pk a) (content_type a) (object_id a) (name a) v.
End Attribute.

Global Instance Attribute_eq_dec : EqDecision Attribute.t.
Proof. solve_decision. Defined.

(** What does not change about the owning object: its concrete type, its
    primary key, and the attributes its class declares besides those of
    [AttributeMixin]. *)
Record owner : Set := Owner {
  owner_type : string;
  owner_pk : Z;
  class_dict : gmap string pyval
}.

(** The state the mapping methods work on: the instance [__dict__] of [self]
    and the table of [Attribute] rows, keyed by primary key. *)
Record attr_state : Set := AttrState {
  instance_dict : gmap string pyval;
  table : gmap Z Attribute.t
}.

(** What the body of [AttributeMixin] binds in the class namespace. *)
Definition AttributeMixin_dict : gmap string pyval :=
  <["attributes" := PyRelatedManager]>
  (<["_attributes" := PyBoundMethod "_attributes"]>
  (<["__getitem__" := PyBoundMethod "__getitem__"]>
  (<["__setitem__" := PyBoundMethod "__setitem__"]> ∅))).

(** [getattr(self, key)]: the instance, then the classes. *)
Definition getattr (o : owner) (key : string) : M attr_state pyval := λ st,
  match instance_dict st !! key with
  | Some v => (Return v, st)
  | None =>
      match class_dict o !! key with
      | Some v => (Return v, st)
      | None =>
          match AttributeMixin_dict !! key with
          | Some v => (Return v, st)
          | None => (Raise AttributeError, st)
          end
      end
  end.

(** [del self.<name>]: no class here defines [__delattr__] or a descriptor
    with [__delete__], so the statement removes an entry of the instance
    [__dict__] and raises when there is none. *)
Definition delattr (name : string) : M attr_state unit := λ st,
  match instance_dict st !! name with
  | Some _ => (Return tt, AttrState (delete name (instance_dict st)) (table st))
  | None => (Raise AttributeError, st)
  end.

(** [try: m except e: h] *)
Definition try_except {S A} (m : M S A) (e : exn) (h : M S A) : M S A := λ s,
  match m s with
  | (Raise e', s') => if decide (e' = e) then h s' else (Raise e', s')
  | r => r
  end.

(** The rows [self.attributes] ranges over, and those among them that
    [.get(name=key)] selects. *)
Definition related (o : owner) (a : Attribute.t) : Prop :=
  Attribute.content_type a = owner_type o ∧ Attribute.object_id a = owner_pk o.

Global Instance related_dec o a : Decision (related o a).
Proof. unfold related. apply _. Defined.

Definition attributes (o : owner) (tbl : gmap Z Attribute.t)
    : list (Z * Attribute.t) :=
  filter (λ r, related o r.2) (map_to_list tbl).

Definition attributes_filter_name (o : owner) (key : string)
    (tbl : gmap Z Attribute.t) : list (Z * Attribute.t) :=
  filter (λ r, Attribute.name r.2 = key) (attributes o tbl).

(** [self.attributes.get(name=key)]: the one matching row, loaded as a model
    instance. *)
Definition attributes_get (o : owner) (key : string)
    : M attr_state Attribute.t := λ st,
  match attributes_filter_name o key (table st) with
  | [] => (Raise DoesNotExist, st)
  | [(i, a)] => (Return (Attribute.set_pk (Some i) a), st)
  | _ :: _ :: _ => (Raise MultipleObjectsReturned, st)
  end.

(** [self.attributes.values_list('name', 'value')] *)
Definition values_list (o : owner) (tbl : gmap Z Attribute.t)
    : list (string * string) :=
  (λ r, (Attribute.name r.2, Attribute.value r.2)) <$> attributes o tbl.

(** [dict(pairs)]: a later pair replaces an earlier one with the same key. *)
Definition dict (pairs : list (string * string)) : gmap string string :=
  foldl (λ d p, <[p.1 := p.2]> d) ∅ pairs.

(** [attr.save()], the framework's [Model.save] on an [Attribute]. *)
Definition attr_save (a : Attribute.t) : M attr_state unit := λ st,
  match Attribute.pk a with
  | Some i => (Return tt, AttrState (instance_dict st) (<[i := a]> (table st)))
  | None =>
      let i := next_id (table st) in
      (Return tt, AttrState (instance_dict st)
                            (<[i := Attribute.set_pk (Some i) a]> (table st)))
  end.

(** ** AttributeMixin *)

(** [AttributeMixin._attributes] *)
Definition _attributes (o : owner) : M attr_state (gmap string string) :=
  gets (λ st, dict (values_list o (table st))).

(** [AttributeMixin.__getitem__] *)
Definition __getitem__ (o : owner) (key : string) : M attr_state pyval :=
  try_except (getattr o key) AttributeError
    (d ← _attributes o;
     match d !! key with
     | Some v => mret (PyStr v)
     | None => raise KeyError
     end).

(** [AttributeMixin.__setitem__] *)
Definition __setitem__ (o : owner) (key value : string) : M attr_state unit :=
  attr ← try_except (attributes_get o key) DoesNotExist
            (mret (Attribute.mk None (owner_type o) (owner_pk o) key ""));
  let attr := Attribute.set_value value attr in
  attr_save attr;;
  delattr "_attributes".

(** Writes one after the other by a caller that goes on after each call,
    whatever its outcome. *)
Definition setitem_each (o : owner) (key : string) (values : list string)
    (st : attr_state) : attr_state :=
  foldl (λ st value, (__setitem__ o key value st).2) st values.

(** ** Tables of slugs *)

(** The slugs in use in a table; a row whose slug is [NULL] has none. *)
Definition slugs (rows : gmap Z Entity.t) : list string :=
  omap Entity.slug (map_to_list rows).*2.

(** An object [save] will give a slug to: no primary key, no slug, and a
    string for [sluggable]. *)
Definition creatable (e : Entity.t) : bool :=
  bool_decide (Entity.id e = None) && negb (truthy_slug (Entity.slug e))
  && match sluggable_of e with
     | Bound (Some _) => true
     | _ => false
     end.

(** ** StartEndManager *)

(** A row of a model with [StartEndMixin] or [StartEndBetaMixin]: [end] may
    be [NULL] in both, [start] in the second.  A [datetime] is a point on
    the time line. *)
Module Window.
Record t : Set := mk {
  start : option Z;
  end_ : option Z
}.
End Window.

(** The lookups [start__lte=now] and [end__gte=now] as the database
    evaluates them: a comparison with [NULL] selects nothing. *)
Definition start__lte (now : Z) (r : Window.t) : bool :=
  match Window.start r with
  | Some s => (s <=? now)%Z
  | None => false
  end.

Definition end__gte (now : Z) (r : Window.t) : bool :=
  match Window.end_ r with
  | Some e => (now <=? e)%Z
  | None => false
  end.

(** [StartEndManager.current], with [now] the value [datetime.datetime.now()]
    returned: the rows of [self.get_query_set()] that pass both lookups. *)
Definition current (now : Z) (rows : gmap Z Window.t) : gmap Z Window.t :=
  filter (λ r, start__lte now r.2 = true ∧ end__gte now r.2 = true) rows.

(** ** LinkURLMixin *)

Module Link.
Record t : Set := mk {
  content_type : option string;
  object_id : option Z;
  url : string
}.
End Link.

(** An object a link can point at, as far as [get_absolute_url] goes:
    whether it has a method of that name, and what a call of it gives. *)
Record linked : Type := Linked {
  linked_get_absolute_url : option (outcome (option string))
}.

(** Python truth value of a string. *)
Definition truthy_str (s : string) : bool :=
  match s with
  | EmptyString => false
  | String _ _ => true
  end.

(** [self.content_object], the generic foreign key over [content_type] and
    [object_id]: [None] when either is [NULL] or no such object exists. *)
Definition content_object (l : Link.t) (db : gmap (string * Z) linked)
    : option linked :=
  ct ← Link.content_type l; pk ← Link.object_id l; db !! (ct, pk).

(** [target.get_absolute_url()]: [None] has no such attribute, and the
    target may have none either. *)
Definition call_get_absolute_url (target : option linked)
    : M (gmap (string * Z) linked) (option string) := λ db,
  match target with
  | None => (Raise AttributeError, db)
  | Some obj =>
      match linked_get_absolute_url obj with
      | None => (Raise AttributeError, db)
      | Some out => (out, db)
      end
  end.

(** [LinkURLMixin.get_absolute_url] *)
Definition get_absolute_url (l : Link.t)
    : M (gmap (string * Z) linked) (option string) :=
  if truthy_str (Link.url l) then mret (Some (Link.url l))
  else
    try_except
      (target ← gets (content_object l); call_get_absolute_url target)
      AttributeError
      (mret None).

(** ** An ASCII rendering of [slugify], to run the model on examples *)

Definition is_space (c : ascii) : bool :=
  let n := nat_of_ascii c in (n =? 32) || ((9 <=? n) && (n <=? 13)).
Definition is_word (c : ascii) : bool :=
  let n := nat_of_ascii c in
  ((48 <=? n) && (n <=? 57)) || ((65 <=? n) && (n <=? 90))
  || ((97 <=? n) && (n <=? 122)) || (n =? 95).
Definition is_dash (c : ascii) : bool := nat_of_ascii c =? 45.
Definition lower (c : ascii) : ascii :=
  let n := nat_of_ascii c in
  if (65 <=? n) && (n <=? 90) then ascii_of_nat (n + 32) else c.

Fixpoint lstrip (l : list ascii) : list ascii :=
  match l with
  | c :: l' => if is_space c then lstrip l' else l
  | [] => []
  end.

Fixpoint collapse (in_run : bool) (l : list ascii) : list ascii :=
  match l with
  | [] => []
  | c :: l' =>
      if is_dash c || is_space c
      then (if in_run then collapse true l' else "-"%char :: collapse true l')
      else c :: collapse false l'
  end.

(** [re.sub('[^\w\s-]', '', value).strip().lower()], then
    [re.sub('[-\s]+', '-', value)], on ASCII text. *)
Definition slugify_ascii (value : string) : string :=
  let value := filter (λ c, is_word c || is_space c || is_dash c)
                 (String.list_ascii_of_string value) in
  let value := reverse (lstrip (reverse (lstrip value))) in
  let value := lower <$> value in
  String.string_of_list_ascii (collapse false value).

(** ** Example objects *)

(** A table of pages with one row, and objects about to be created. *)
Definition about_page : Entity.t :=
  Entity.mk (Some 5%Z) (Some "about") (Field (Some "About")) NoField.
Definition pages : gmap Z Entity.t := {[5%Z := about_page]}.
Definition new_page (title : string) : Entity.t :=
  Entity.mk None None (Field (Some title)) NoField.
Definition hello_pages : list Entity.t :=
  [new_page "Hello,  World!"; new_page "hello world";
   Entity.mk None None NoField (Field (Some " hello - world "))].
Definition titled_and_named : Entity.t :=
  Entity.mk None None (Field (Some "The Title")) (Field (Some "The Name")).

(** An owner with a [title] field and no attribute rows yet. *)
Definition home : owner := Owner "pages.page" 7 ∅.
Definition home_state : attr_state := AttrState {["title" := PyStr "Home"]} ∅.

(** A table whose row 9 was given the slug of row 5 by hand. *)
Definition pages_with_copy : gmap Z Entity.t :=
  <[9%Z := Entity.mk (Some 9%Z) (Some "about") (Field (Some "About us")) NoField]>
    pages.
Definition preset_page : Entity.t :=
  Entity.mk None (Some "about") (Field (Some "About again")) NoField.

(** Two attribute rows of the same name for [home], as two direct inserts
    leave them. *)
Definition home_twice : attr_state :=
  AttrState {["title" := PyStr "Home"]}
    (<[2%Z := Attribute.mk (Some 2%Z) "pages.page" 7 "color" "blue"]>
       {[1%Z := Attribute.mk (Some 1%Z) "pages.page" 7 "color" "red"]}).
Definition home_red : attr_state :=
  AttrState {["title" := PyStr "Home"]}
    {[1%Z := Attribute.mk (Some 1%Z) "pages.page" 7 "color" "red"]}.
Definition other_page : owner := Owner "pages.page" 8 ∅.

(** Time windows: closed, open-ended, and empty. *)
Definition windows : gmap Z Window.t :=
  <[1%Z := Window.mk (Some 10%Z) (Some 20%Z)]>
  (<[2%Z := Window.mk (Some 10%Z) None]>
  {[3%Z := Window.mk (Some 30%Z) (Some 20%Z)]}).

(** Links: to an object with a URL, to nothing, and with a URL of its own. *)
Definition site : gmap (string * Z) linked :=
  <[("pages.page", 7%Z) := Linked (Some (Return (Some "/pages/home/")))]>
  {[("auth.user", 1%Z) := Linked None]}.
Definition link_home : Link.t := Link.mk (Some "pages.page") (Some 7%Z) "".
Definition link_user : Link.t := Link.mk (Some "auth.user") (Some 1%Z) "".
Definition link_gone : Link.t := Link.mk (Some "pages.page") (Some 99%Z) "".
Definition link_external : Link.t :=
  Link.mk (Some "pages.page") (Some 7%Z) "https://example.org/".

(** * Properties *)

(** ** The monad *)

Lemma bind_Return {S A B} (m : M S A) (k : A → M S B) s a s' :
  m s = (Return a, s') → (m ≫= k) s = k a s'.
Proof. unfold mbind, M_bind. by intros ->. Qed.

Lemma bind_Raise {S A B} (m : M S A) (k : A → M S B) s e s' :
  m s = (Raise e, s') → (m ≫= k) s = (Raise e, s').
Proof. unfold mbind, M_bind. by intros ->. Qed.

(** ** The storage layer *)

Lemma foldr_max_bound (l : list Z) (i : Z) : i ∈ l → (i ≤ foldr Z.max 0 l)%Z.
Proof.
  induction l as [|j l IH]; [by intros ?%elem_of_nil|].
  intros [->|Hi]%elem_of_cons; simpl; [lia|].
  specialize (IH Hi). lia.
Qed.

Lemma next_id_fresh {A} (rows : gmap Z A) : rows !! next_id rows = None.
Proof.
  destruct (rows !! next_id rows) as [r|] eqn:Hr; [|done].
  assert (next_id rows ∈ (map_to_list rows).*1) as Hin.
  { apply list_elem_of_fmap. exists (next_id rows, r).
    split; [done|]. by apply elem_of_map_to_list. }
  apply foldr_max_bound in Hin. unfold next_id in Hin. lia.
Qed.

Lemma filter_slug_exists_true rows slug :
  filter_slug_exists rows slug = true ↔
  ∃ i r, rows !! i = Some r ∧ Entity.slug r = Some slug.
Proof.
  unfold filter_slug_exists. rewrite existsb_exists. split.
  - intros (r & Hin & Hr). apply list_elem_of_In, list_elem_of_fmap in Hin.
    destruct Hin as ([i r'] & -> & Hin). apply elem_of_map_to_list in Hin.
    apply bool_decide_eq_true in Hr. eauto.
  - intros (i & r & Hi & Hr). exists r. split.
    + apply list_elem_of_In, list_elem_of_fmap. exists (i, r).
      split; [done|]. by apply elem_of_map_to_list.
    + by apply bool_decide_eq_true.
Qed.

Lemma filter_slug_exists_false rows slug :
  filter_slug_exists rows slug = false ↔
  ∀ i r, rows !! i = Some r → Entity.slug r ≠ Some slug.
Proof.
  rewrite <-not_true_iff_false, filter_slug_exists_true. split.
  - intros Hnone i r Hi Hr. apply Hnone. eauto.
  - intros Hall (i & r & Hi & Hr). by eapply Hall.
Qed.

Lemma filter_slug_exists_insert rows i e slug :
  rows !! i = None →
  filter_slug_exists (<[i := e]> rows) slug =
  bool_decide (Entity.slug e = Some slug) || filter_slug_exists rows slug.
Proof.
  intros Hi. apply eq_true_iff_eq.
  rewrite orb_true_iff, bool_decide_eq_true, !filter_slug_exists_true. split.
  - intros (j & r & Hj & Hr). apply lookup_insert_Some in Hj.
    destruct Hj as [[<- <-]|[? ?]]; eauto.
  - intros [He|(j & r & Hj & Hr)].
    + exists i, e. by rewrite lookup_insert_eq.
    + exists j, r. split; [|done]. rewrite lookup_insert_ne; [done|congruence].
Qed.

Lemma slug_collides_false rows e slug :
  Entity.slug e = Some slug →
  filter_slug_exists rows slug = false → slug_collides rows e = false.
Proof.
  intros He Hfree. unfold slug_collides. rewrite He.
  apply not_true_iff_false. rewrite existsb_exists.
  intros ([i r] & Hin & Hr). apply list_elem_of_In, elem_of_map_to_list in Hin.
  apply andb_true_iff in Hr as [_ Hr%bool_decide_eq_true].
  rewrite filter_slug_exists_false in Hfree. by eapply Hfree.
Qed.

(** [Model.save] never touches the slug of the object it writes. *)
Lemma super_save_slug v st :
  Entity.slug (self (super_save v st).2) = Entity.slug (self st).
Proof.
  unfold super_save.
  destruct (unique v && slug_collides (objects st) (self st)); [done|].
  by destruct (Entity.id (self st)).
Qed.

(** ** The candidates of the retry loop *)

Lemma append_dash_ne (p s : string) : p ≠ p +:+ "-" +:+ s.
Proof. induction p as [|c p IH]; simpl; [done|]. intros [= Hp]. auto. Qed.

Section Candidates.
Variable slug_prefix : string.

Lemma candidate_S index :
  candidate slug_prefix (index + 1) = slug_prefix +:+ "-" +:+ pretty (index + 1).
Proof. by rewrite Nat.add_1_r. Qed.

Global Instance candidate_inj : Inj (=) (=) (candidate slug_prefix).
Proof.
  intros [|i] [|j] Hij; simpl in Hij.
  - done.
  - by apply append_dash_ne in Hij.
  - symmetry in Hij. by apply append_dash_ne in Hij.
  - apply (inj (String.app slug_prefix)) in Hij.
    apply (inj (String.app "-")) in Hij. by apply (inj pretty) in Hij.
Qed.

(** Pigeonhole: a table cannot hold more distinct candidates than rows. *)
Lemma candidates_taken_bound (rows : gmap Z Entity.t) (n : nat) :
  (∀ j, j < n → filter_slug_exists rows (candidate slug_prefix j) = true) →
  n ≤ size rows.
Proof.
  intros Htaken.
  set (cs := (λ j, Some (candidate slug_prefix j)) <$> seq 0 n).
  set (ss := Entity.slug <$> (map_to_list rows).*2).
  assert (cs ⊆+ ss) as Hsub.
  { apply NoDup_submseteq.
    - apply NoDup_fmap_2; [|apply NoDup_seq].
      intros i j Hij. apply (inj (candidate slug_prefix)). congruence.
    - intros x (j & -> & Hj)%list_elem_of_fmap. apply elem_of_seq in Hj.
      destruct (proj1 (filter_slug_exists_true _ _) (Htaken j ltac:(lia)))
        as (i & r & Hi & Hr).
      apply list_elem_of_fmap. exists r. split; [done|].
      apply list_elem_of_fmap. exists (i, r). split; [done|].
      by apply elem_of_map_to_list. }
  apply submseteq_length in Hsub. unfold cs, ss in Hsub.
  rewrite !length_fmap, length_seq, length_map_to_list in Hsub. done.
Qed.

(** The loop, entered at [index] with the candidate of that index, leaves
    at the first free candidate from there on. *)
Lemma slugify_loop_exit rows fuel index k :
  index ≤ k →
  (∀ j, index ≤ j < k → filter_slug_exists rows (candidate slug_prefix j) = true) →
  filter_slug_exists rows (candidate slug_prefix k) = false →
  k - index < fuel →
  slugify_loop fuel rows slug_prefix index (candidate slug_prefix index)
  = Some (candidate slug_prefix k).
Proof.
  revert index. induction fuel as [|fuel IH]; intros index Hle Htaken Hfree Hfuel;
    [lia|]. simpl.
  destruct (decide (index = k)) as [->|Hne].
  - by rewrite Hfree.
  - rewrite Htaken by lia. rewrite <-candidate_S.
    apply IH; [lia| |done|lia]. intros j Hj. apply Htaken. lia.
Qed.

(** Some candidate is free, at an index no larger than the table. *)
Lemma first_free_candidate (rows : gmap Z Entity.t) :
  ∃ k, k ≤ size rows
    ∧ (∀ j, j < k → filter_slug_exists rows (candidate slug_prefix j) = true)
    ∧ filter_slug_exists rows (candidate slug_prefix k) = false.
Proof.
  assert (∀ n, (∀ j, j < n →
                 filter_slug_exists rows (candidate slug_prefix j) = true)
             ∨ ∃ k, k < n
                ∧ (∀ j, j < k →
                     filter_slug_exists rows (candidate slug_prefix j) = true)
                ∧ filter_slug_exists rows (candidate slug_prefix k) = false)
    as Hscan.
  { induction n as [|n [IH|(k & ? & ? & ?)]].
    - left. lia.
    - destruct (filter_slug_exists rows (candidate slug_prefix n)) eqn:Hn.
      + left. intros j Hj. destruct (decide (j = n)) as [->|]; [done|].
        apply IH. lia.
      + right. exists n. eauto.
    - right. exists k. split; [lia|done]. }
  destruct (Hscan (S (size rows))) as [Hall|(k & Hk & Hlow & Hfree)].
  - apply candidates_taken_bound in Hall. lia.
  - exists k. split; [|done]. apply candidates_taken_bound in Hlow. lia.
Qed.
End Candidates.

(** ** BaseSlugMixin *)

Section BaseSlugMixinProperties.
Variable slugify : string → string.

(** The budget of [slugify_uniquely] always suffices: the call returns the
    first free candidate. *)
Lemma slugify_uniquely_first_free rows sluggable k :
  (∀ j, j < k →
     filter_slug_exists rows (candidate (slugify sluggable) j) = true) →
  filter_slug_exists rows (candidate (slugify sluggable) k) = false →
  slugify_uniquely slugify rows sluggable
  = Some (candidate (slugify sluggable) k).
Proof.
  intros Hlow Hfree. unfold slugify_uniquely.
  apply (slugify_loop_exit (slugify sluggable) rows _ 0 k);
    [lia|intros; apply Hlow; lia|done|].
  apply candidates_taken_bound in Hlow. lia.
Qed.

Lemma slugify_uniquely_total rows sluggable :
  is_Some (slugify_uniquely slugify rows sluggable).
Proof.
  destruct (first_free_candidate (slugify sluggable) rows)
    as (k & _ & Hlow & Hfree).
  rewrite (slugify_uniquely_first_free _ _ k); eauto.
Qed.

(** What [save] does when the guard of line 95 lets it through, and when
    it does not. *)
Lemma save_guard_true v e rows :
  truthy_id (Entity.id e) = false → truthy_slug (Entity.slug e) = false →
  save slugify v (SlugState e rows) =
  match sluggable_of e with
  | Unbound => (Raise UnboundLocalError, SlugState e rows)
  | Bound None => super_save v (SlugState e rows)
  | Bound (Some sluggable) =>
      match slugify_uniquely slugify rows sluggable with
      | Some slug =>
          super_save v (SlugState (Entity.set_slug (Some slug) e) rows)
      | None => (Diverge, SlugState e rows)
      end
  end.
Proof.
  intros Hid Hslug. unfold save, mbind, M_bind, gets; simpl.
  rewrite Hid, Hslug; simpl.
  destruct (sluggable_of e) as [|[sluggable|]]; simpl; [done| |done].
  by destruct (slugify_uniquely slugify rows sluggable).
Qed.

Lemma save_guard_false v e rows :
  truthy_id (Entity.id e) = true ∨ truthy_slug (Entity.slug e) = true →
  save slugify v (SlugState e rows) = super_save v (SlugState e rows).
Proof.
  intros Hguard. unfold save, mbind, M_bind, gets; simpl.
  destruct Hguard as [-> | ->]; [done|].
  by destruct (truthy_id (Entity.id e)).
Qed.

(** [save] always comes back, with a result or an exception: the budget of
    the loop is never the reason it stops. *)
Lemma super_save_not_Diverge v st : (super_save v st).1 ≠ Diverge.
Proof.
  unfold super_save.
  destruct (unique v && slug_collides (objects st) (self st)); [done|].
  by destruct (Entity.id (self st)).
Qed.

Lemma save_not_Diverge v e rows : (save slugify v (SlugState e rows)).1 ≠ Diverge.
Proof.
  destruct (truthy_id (Entity.id e)) eqn:Hid;
    [rewrite save_guard_false by auto; apply super_save_not_Diverge|].
  destruct (truthy_slug (Entity.slug e)) eqn:Hslug;
    [rewrite save_guard_false by auto; apply super_save_not_Diverge|].
  rewrite save_guard_true by done.
  destruct (sluggable_of e) as [|[sluggable|]];
    [done| |apply super_save_not_Diverge].
  destruct (slugify_uniquely_total rows sluggable) as [slug ->].
  apply super_save_not_Diverge.
Qed.

(** The key a first [save] draws counts as an identity afterwards. *)
Lemma next_id_truthy {A} (rows : gmap Z A) : truthy_id (Some (next_id rows)) = true.
Proof.
  unfold truthy_id, next_id. apply negb_true_iff, Z.eqb_neq.
  assert (0 ≤ foldr Z.max 0 (map_to_list rows).*1)%Z; [|lia].
  induction ((map_to_list rows).*1); simpl; lia.
Qed.

(** Creating one object when the candidates below [k] are taken and the
    one at [k] is free. *)
Lemma save_creates v base e rows k :
  new_with_base slugify base e = true →
  (∀ j, j < k → filter_slug_exists rows (candidate base j) = true) →
  filter_slug_exists rows (candidate base k) = false →
  let e' := Entity.set_id (Some (next_id rows))
              (Entity.set_slug (Some (candidate base k)) e) in
  save slugify v (SlugState e rows)
  = (Return tt, SlugState e' (<[next_id rows := e']> rows)).
Proof.
  intros Hnew Hlow Hfree. unfold new_with_base in Hnew.
  apply andb_true_iff in Hnew as [[Hid%bool_decide_eq_true Hslug]%andb_true_iff Hsl].
  apply negb_true_iff in Hslug.
  destruct (sluggable_of e) as [|[sluggable|]] eqn:Hs; [done| |done].
  apply bool_decide_eq_true in Hsl as <-.
  rewrite save_guard_true, Hs by (by rewrite ?Hid).
  rewrite (slugify_uniquely_first_free _ _ k) by done.
  unfold super_save; simpl.
  rewrite (slug_collides_false _ _ (candidate (slugify sluggable) k)) by done.
  by rewrite andb_false_r, Hid.
Qed.

Lemma create_all_from v base es : ∀ rows k,
  forallb (new_with_base slugify base) es = true →
  (∀ j, j < k → filter_slug_exists rows (candidate base j) = true) →
  (∀ j, k ≤ j < k + length es →
     filter_slug_exists rows (candidate base j) = false) →
  (create_all slugify v es rows).1.*1 = replicate (length es) (Return tt)
  ∧ Entity.slug <$> (create_all slugify v es rows).1.*2
    = (λ j, Some (candidate base j)) <$> seq k (length es).
Proof.
  induction es as [|e es IH]; intros rows k Hnew Hlow Hfree; [done|].
  simpl in Hnew. apply andb_true_iff in Hnew as [He Hes].
  simpl. rewrite (save_creates v base e rows k) by (auto; apply Hfree; simpl; lia).
  simpl.
  set (e' := Entity.set_id _ _).
  destruct (IH (<[next_id rows := e']> rows) (S k)) as [IHo IHs]; [done| |
    |destruct (create_all slugify v es _) as [rs rows']; simpl in *;
     split; f_equal; [exact IHo|exact IHs]].
  - intros j Hj. rewrite filter_slug_exists_insert by apply next_id_fresh.
    destruct (decide (j = k)) as [->|].
    + by rewrite bool_decide_eq_true_2.
    + rewrite Hlow by lia. apply orb_true_r.
  - intros j Hj. rewrite filter_slug_exists_insert by apply next_id_fresh.
    rewrite Hfree by (simpl; lia).
    rewrite bool_decide_eq_false_2; [done|]. simpl.
    intros [= Hc]. apply (inj (candidate base)) in Hc. lia.
Qed.

(** C1: creating N objects one after the other, whose titles or names all
    normalize to the same base slug, in a table where none of the slugs
    base, base-1, ..., base-(N-1) is in use yet: every [save] returns, and
    the slugs assigned are, in order, base, base-1, ..., base-(N-1), all
    distinct.  Each [slugify_uniquely] runs against the rows of the
    concrete type as the previous saves left them. *)
Theorem create_all_slugs v (base : string) (es : list Entity.t)
    (rows : gmap Z Entity.t) :
  forallb (new_with_base slugify base) es = true →
  (∀ j, j < length es → filter_slug_exists rows (candidate base j) = false) →
  let created := (create_all slugify v es rows).1 in
  created.*1 = replicate (length es) (Return tt)
  ∧ Entity.slug <$> created.*2
    = (λ j, Some (candidate base j)) <$> seq 0 (length es)
  ∧ NoDup (Entity.slug <$> created.*2).
Proof.
  intros Hnew Hfree created.
  destruct (create_all_from v base es rows 0) as [Ho Hs];
    [done|lia|intros; apply Hfree; lia|].
  split_and!; [done..|]. unfold created. rewrite Hs.
  apply NoDup_fmap_2; [|apply NoDup_seq].
  intros i j Hij. apply (inj (candidate base)). congruence.
Qed.

(** C2: the claim asks that saving a new object of a type with neither a
    [title] nor a [name] field succeeds and leaves the slug unset.  The
    code does not: with no identity and no slug the guard of line 95
    holds, neither [hasattr] branch binds [sluggable], and line 102 reads
    the unbound local: [save] raises [UnboundLocalError], with the object
    and the table untouched and the storage layer never called. *)
Theorem save_neither_field_raises v (e : Entity.t) (rows : gmap Z Entity.t) :
  truthy_id (Entity.id e) = false → truthy_slug (Entity.slug e) = false →
  Entity.title e = NoField → Entity.name e = NoField →
  save slugify v (SlugState e rows) = (Raise UnboundLocalError, SlugState e rows).
Proof.
  intros Hid Hslug Ht Hn. rewrite save_guard_true by done.
  unfold sluggable_of. by rewrite Ht, Hn.
Qed.

(** A first [save] that returns has given the object an identity that
    the guard of line 95 sees, so a second [save] keeps the slug of the
    first, however the title and the name have been changed in between. *)
Lemma super_save_identity v st st' :
  Entity.id (self st) = None →
  super_save v st = (Return tt, st') →
  truthy_id (Entity.id (self st')) = true.
Proof.
  unfold super_save. intros ->.
  destruct (unique v && slug_collides (objects st) (self st)); [done|].
  intros [= <-]. apply next_id_truthy.
Qed.

Lemma save_identity v e rows st' :
  Entity.id e = None →
  save slugify v (SlugState e rows) = (Return tt, st') →
  truthy_id (Entity.id (self st')) = true.
Proof.
  intros Hid. destruct (truthy_slug (Entity.slug e)) eqn:Hslug.
  - rewrite save_guard_false by auto. by apply super_save_identity.
  - rewrite save_guard_true by (by rewrite ?Hid).
    destruct (sluggable_of e) as [|[sluggable|]]; [done| |].
    + destruct (slugify_uniquely slugify rows sluggable); [|done].
      by apply super_save_identity.
    + by apply super_save_identity.
Qed.

Lemma save_again_keeps_slug v e rows st' (title' name' : field) :
  Entity.id e = None →
  save slugify v (SlugState e rows) = (Return tt, st') →
  Entity.slug
    (self (save slugify v
             (SlugState (Entity.set_name name' (Entity.set_title title' (self st')))
                        (objects st'))).2)
  = Entity.slug (self st').
Proof.
  intros Hid Hsave. rewrite save_guard_false, super_save_slug; [done|].
  left. simpl. by eapply save_identity.
Qed.

(** C4: once an object has an identity or a slug, [save] leaves its slug
    as it is, whatever has been done to its title and name since: the
    call is then just the storage layer's save, and slug assignment runs
    only when both the identity and the slug are absent. *)
Theorem save_keeps_assigned_slug v (e : Entity.t) (rows : gmap Z Entity.t)
    (title' name' : field) :
  truthy_id (Entity.id e) = true ∨ truthy_slug (Entity.slug e) = true →
  let e' := Entity.set_name name' (Entity.set_title title' e) in
  save slugify v (SlugState e' rows) = super_save v (SlugState e' rows)
  ∧ Entity.slug (self (save slugify v (SlugState e' rows)).2) = Entity.slug e.
Proof.
  intros Hguard e'.
  assert (save slugify v (SlugState e' rows) = super_save v (SlugState e' rows))
    as Hsave by by apply save_guard_false.
  split; [done|]. rewrite Hsave. apply super_save_slug.
Qed.

(** C9: a new, unsaved object with both a [title] and a [name] field gets
    its slug from the name: the title branch binds [sluggable] first and
    the name branch rebinds it, so the slug after [save] is what
    [slugify_uniquely] makes of the name (and stays as it was when the
    name is [None]), whatever the title is. *)
Theorem save_slug_from_name v (e : Entity.t) (rows : gmap Z Entity.t)
    (t n : option string) :
  truthy_id (Entity.id e) = false → truthy_slug (Entity.slug e) = false →
  Entity.title e = Field t → Entity.name e = Field n →
  sluggable_of e = Bound n
  ∧ Entity.slug (self (save slugify v (SlugState e rows)).2)
    = match n with
      | Some sluggable => slugify_uniquely slugify rows sluggable
      | None => Entity.slug e
      end.
Proof.
  intros Hid Hslug Ht Hn.
  assert (sluggable_of e = Bound n) as Hs.
  { unfold sluggable_of. by rewrite Ht, Hn. }
  split; [done|]. rewrite save_guard_true, Hs by done.
  destruct n as [sluggable|]; [|apply super_save_slug].
  destruct (slugify_uniquely_total rows sluggable) as [slug ->].
  by rewrite super_save_slug.
Qed.

(** C10: the collision-resolution loop of [slugify_uniquely] terminates.
    For every candidate string and every (finite) table of existing rows
    there is an index, at most the number of rows, whose candidate is not
    in the table while all candidates before it are; the [while] loop
    leaves with that candidate as soon as it is allowed one evaluation of
    its condition more than that index, whatever larger budget it has. *)
Theorem slugify_loop_terminates (rows : gmap Z Entity.t) (sluggable : string) :
  ∃ index, index ≤ size rows
    ∧ filter_slug_exists rows (candidate (slugify sluggable) index) = false
    ∧ ∀ fuel, index < fuel →
        slugify_loop fuel rows (slugify sluggable) 0 (slugify sluggable)
        = Some (candidate (slugify sluggable) index).
Proof.
  destruct (first_free_candidate (slugify sluggable) rows)
    as (k & Hk & Hlow & Hfree).
  exists k. split_and!; [done..|]. intros fuel Hfuel.
  apply (slugify_loop_exit (slugify sluggable) rows fuel 0 k);
    [lia|intros; apply Hlow; lia|done|lia].
Qed.

(** C6: for every candidate string and every table of existing rows of
    the concrete type, [slugify_uniquely] returns a slug, and no row of
    the table carries that slug. *)
Theorem slugify_uniquely_fresh (rows : gmap Z Entity.t) (sluggable : string) :
  ∃ slug, slugify_uniquely slugify rows sluggable = Some slug
    ∧ ∀ i r, rows !! i = Some r → Entity.slug r ≠ Some slug.
Proof.
  destruct (first_free_candidate (slugify sluggable) rows)
    as (k & _ & Hlow & Hfree).
  exists (candidate (slugify sluggable) k). split.
  - by apply slugify_uniquely_first_free.
  - by apply filter_slug_exists_false.
Qed.
End BaseSlugMixinProperties.

(** The statements above at the example objects, with [slugify_ascii]. *)

Lemma create_all_slugs_witness :
  forallb (new_with_base slugify_ascii "hello-world") hello_pages = true
  ∧ (∀ j, j < length hello_pages →
       filter_slug_exists pages (candidate "hello-world" j) = false)
  ∧ (let created := (create_all slugify_ascii SlugUniqueMixin hello_pages pages).1 in
     created.*1 = replicate (length hello_pages) (Return tt)
     ∧ Entity.slug <$> created.*2
       = (λ j, Some (candidate "hello-world" j)) <$> seq 0 (length hello_pages)
     ∧ NoDup (Entity.slug <$> created.*2)).
Proof.
  assert (∀ j, j < length hello_pages →
            filter_slug_exists pages (candidate "hello-world" j) = false) as Hfree.
  { intros j Hj. destruct j as [|[|[|j]]]; [by vm_compute..|simpl in Hj; lia]. }
  split_and!; [by vm_compute|exact Hfree|].
  apply (create_all_slugs slugify_ascii SlugUniqueMixin "hello-world"
           hello_pages pages); [by vm_compute|exact Hfree].
Defined.

Lemma save_neither_field_raises_witness :
  truthy_id None = false ∧ truthy_slug None = false
  ∧ save slugify_ascii SlugMixin
      (SlugState (Entity.mk None None NoField NoField) pages)
    = (Raise UnboundLocalError,
       SlugState (Entity.mk None None NoField NoField) pages).
Proof.
  split_and!; [reflexivity..|].
  apply (save_neither_field_raises slugify_ascii SlugMixin
           (Entity.mk None None NoField NoField) pages); reflexivity.
Defined.

Lemma save_keeps_assigned_slug_witness :
  (truthy_id (Entity.id about_page) = true
   ∨ truthy_slug (Entity.slug about_page) = true)
  ∧ (let e' := Entity.set_name NoField
                 (Entity.set_title (Field (Some "Contact")) about_page) in
     save slugify_ascii SlugUniqueMixin (SlugState e' pages)
     = super_save SlugUniqueMixin (SlugState e' pages)
     ∧ Entity.slug (self (save slugify_ascii SlugUniqueMixin (SlugState e' pages)).2)
       = Entity.slug about_page).
Proof.
  split; [left; reflexivity|].
  apply (save_keeps_assigned_slug slugify_ascii SlugUniqueMixin about_page pages
           (Field (Some "Contact")) NoField).
  left; reflexivity.
Defined.

Lemma save_slug_from_name_witness :
  truthy_id (Entity.id titled_and_named) = false
  ∧ truthy_slug (Entity.slug titled_and_named) = false
  ∧ sluggable_of titled_and_named = Bound (Some "The Name")
  ∧ Entity.slug (self (save slugify_ascii SlugMixin
                         (SlugState titled_and_named pages)).2)
    = slugify_uniquely slugify_ascii pages "The Name".
Proof.
  split_and!; [reflexivity..| |];
    apply (save_slug_from_name slugify_ascii SlugMixin titled_and_named pages
             (Some "The Title") (Some "The Name")); reflexivity.
Defined.

(** The runs behind these statements. *)
Example create_all_hello_pages :
  Entity.slug <$> (create_all slugify_ascii SlugUniqueMixin hello_pages pages).1.*2
  = [Some "hello-world"; Some "hello-world-1"; Some "hello-world-2"].
Proof. by vm_compute. Qed.

Example save_titled_and_named :
  Entity.slug (self (save slugify_ascii SlugMixin
                       (SlugState titled_and_named pages)).2)
  = Some "the-name".
Proof. by vm_compute. Qed.

(** ** The attribute table *)

Lemma elem_of_attributes_filter_name o key (tbl : gmap Z Attribute.t) i a :
  (i, a) ∈ attributes_filter_name o key tbl ↔
  tbl !! i = Some a ∧ related o a ∧ Attribute.name a = key.
Proof.
  unfold attributes_filter_name, attributes.
  rewrite !list_elem_of_filter, elem_of_map_to_list. simpl. tauto.
Qed.

Lemma attributes_filter_name_insert o key (tbl : gmap Z Attribute.t) i a :
  attributes_filter_name o key (<[i := a]> tbl) ≡ₚ
  (if decide (related o a ∧ Attribute.name a = key) then [(i, a)] else [])
  ++ attributes_filter_name o key (delete i tbl).
Proof.
  unfold attributes_filter_name, attributes.
  rewrite <-insert_delete_eq, map_to_list_insert by apply lookup_delete_eq.
  rewrite filter_cons. simpl.
  destruct (decide (related o a)) as [Hr|Hr].
  - rewrite filter_cons. simpl.
    destruct (decide (Attribute.name a = key)) as [Hn|Hn].
    + by rewrite decide_True.
    + rewrite decide_False; [done|tauto].
  - rewrite decide_False; [done|tauto].
Qed.

Lemma attributes_filter_name_lookup o key (tbl : gmap Z Attribute.t) i a :
  tbl !! i = Some a →
  attributes_filter_name o key tbl ≡ₚ
  (if decide (related o a ∧ Attribute.name a = key) then [(i, a)] else [])
  ++ attributes_filter_name o key (delete i tbl).
Proof.
  intros Hi. rewrite <-(insert_delete_id tbl i a) at 1 by done.
  by rewrite attributes_filter_name_insert, delete_delete_eq.
Qed.

(** ** Python's [dict] on a list of pairs *)

Lemma foldl_insert_lookup (pairs : list (string * string)) k :
  ∀ d : gmap string string,
  foldl (λ d p, <[p.1 := p.2]> d) d pairs !! k =
  match last (filter (λ p, p.1 = k) pairs) with
  | Some p => Some p.2
  | None => d !! k
  end.
Proof.
  induction pairs as [|p pairs IH]; intros d; [done|].
  simpl. rewrite IH, filter_cons.
  destruct (decide (p.1 = k)) as [<-|Hne].
  - rewrite last_cons. destruct (last _); [done|]. by rewrite lookup_insert_eq.
  - destruct (last _); [done|]. by rewrite lookup_insert_ne.
Qed.

Lemma dict_lookup pairs k :
  dict pairs !! k = snd <$> last (filter (λ p, p.1 = k) pairs).
Proof.
  unfold dict. rewrite foldl_insert_lookup.
  by destruct (last _).
Qed.

Lemma values_list_filter o key (tbl : gmap Z Attribute.t) :
  filter (λ p, p.1 = key) (values_list o tbl)
  = (λ r, (Attribute.name r.2, Attribute.value r.2))
    <$> attributes_filter_name o key tbl.
Proof.
  unfold values_list, attributes_filter_name.
  induction (attributes o tbl) as [|r l IH]; [done|].
  rewrite fmap_cons, !filter_cons. simpl.
  destruct (decide (Attribute.name r.2 = key)); by rewrite IH.
Qed.

(** ** AttributeMixin *)

Lemma getattr_state o key st : (getattr o key st).2 = st.
Proof.
  unfold getattr. destruct (instance_dict st !! key); [done|].
  destruct (class_dict o !! key); [done|].
  by destruct (AttributeMixin_dict !! key).
Qed.

(** [getattr] fails on [key] exactly when none of the three namespaces
    binds it. *)
Lemma getattr_AttributeError o key st :
  (getattr o key st).1 = Raise AttributeError ↔
  instance_dict st !! key = None ∧ class_dict o !! key = None
  ∧ AttributeMixin_dict !! key = None.
Proof.
  unfold getattr.
  destruct (instance_dict st !! key); simpl; [intuition congruence|].
  destruct (class_dict o !! key); simpl; [intuition congruence|].
  destruct (AttributeMixin_dict !! key); simpl; intuition congruence.
Qed.

(** The table a write leaves: the matching row updated in place, or a new
    row under a fresh key when there is none. *)
Lemma setitem_table o key value st :
  table (__setitem__ o key value st).2 =
  match attributes_filter_name o key (table st) with
  | [] =>
      <[next_id (table st) :=
          Attribute.mk (Some (next_id (table st))) (owner_type o) (owner_pk o)
            key value]> (table st)
  | [(i, a)] =>
      <[i := Attribute.set_value value (Attribute.set_pk (Some i) a)]> (table st)
  | _ :: _ :: _ => table st
  end.
Proof.
  unfold __setitem__, mbind, M_bind, try_except, attributes_get, attr_save,
    delattr. simpl.
  destruct (attributes_filter_name o key (table st)) as [|[i a] [|??]]; simpl;
    by destruct (instance_dict st !! "_attributes").
Qed.

(** The outcome of a write, and what it does to the instance. *)
Lemma setitem_outcome o key value st :
  (__setitem__ o key value st).1 =
  match attributes_filter_name o key (table st) with
  | _ :: _ :: _ => Raise MultipleObjectsReturned
  | _ =>
      match instance_dict st !! "_attributes" with
      | Some _ => Return tt
      | None => Raise AttributeError
      end
  end
  ∧ (instance_dict st !! "_attributes" = None →
     instance_dict (__setitem__ o key value st).2 = instance_dict st).
Proof.
  unfold __setitem__, mbind, M_bind, try_except, attributes_get, attr_save,
    delattr. simpl.
  destruct (attributes_filter_name o key (table st)) as [|[i a] [|??]]; simpl;
    [| |done]; by destruct (instance_dict st !! "_attributes").
Qed.

(** With at most one row of that name before the write, there is exactly
    one after it, and it carries the value written. *)
Lemma setitem_one_row o key value st :
  length (attributes_filter_name o key (table st)) ≤ 1 →
  ∃ i a,
    attributes_filter_name o key (table (__setitem__ o key value st).2) = [(i, a)]
    ∧ Attribute.value a = value.
Proof.
  intros Hone. rewrite setitem_table.
  destruct (attributes_filter_name o key (table st)) as [|[i a] [|??]] eqn:Hrows;
    [| |simpl in Hone; lia].
  - eexists _, _. split; [apply Permutation_singleton_r|].
    + rewrite attributes_filter_name_insert, decide_True by done.
      rewrite delete_id, Hrows by apply next_id_fresh. simpl. reflexivity.
    + done.
  - assert ((i, a) ∈ attributes_filter_name o key (table st)) as Hin
      by (rewrite Hrows; apply list_elem_of_here).
    apply elem_of_attributes_filter_name in Hin as (Hi & Hrel & Hname).
    pose proof (attributes_filter_name_lookup o key _ _ _ Hi) as Hperm.
    rewrite Hrows, decide_True in Hperm by done.
    simpl in Hperm. apply Permutation.Permutation_cons_inv in Hperm.
    apply Permutation_nil_l in Hperm.
    eexists _, _. split; [apply Permutation_singleton_r|].
    + rewrite attributes_filter_name_insert, decide_True by done.
      rewrite <-Hperm. simpl. reflexivity.
    + done.
Qed.

Lemma setitem_each_rows o key values : ∀ st,
  length (attributes_filter_name o key (table st)) ≤ 1 →
  length (attributes_filter_name o key (table (setitem_each o key values st))) ≤ 1.
Proof.
  induction values as [|value values IH]; intros st Hone; [done|].
  simpl. apply IH.
  destruct (setitem_one_row o key value st Hone) as (i & a & -> & _). done.
Qed.

(** After a write, a read of a key that [getattr] does not resolve finds
    the value in the rebuilt snapshot. *)
Lemma getitem_after_setitem o key value st :
  (getattr o key st).1 = Raise AttributeError →
  length (attributes_filter_name o key (table st)) ≤ 1 →
  __getitem__ o key (__setitem__ o key value st).2
  = (Return (PyStr value), (__setitem__ o key value st).2).
Proof.
  intros Hkey Hone.
  destruct (setitem_one_row o key value st Hone) as (i & a & Hrows & Ha).
  assert (instance_dict (__setitem__ o key value st).2 !! key = None) as Hinst.
  { apply getattr_AttributeError in Hkey as (Hinst & _ & _).
    unfold __setitem__, mbind, M_bind, try_except, attributes_get, attr_save,
      delattr. simpl.
    destruct (attributes_filter_name o key (table st)) as [|[] [|??]]; simpl;
      [| |done]; (destruct (instance_dict st !! "_attributes"); simpl;
                  [by apply lookup_delete_None; right|done]). }
  set (st' := (__setitem__ o key value st).2) in *.
  assert ((getattr o key st').1 = Raise AttributeError) as Hkey'.
  { apply getattr_AttributeError. apply getattr_AttributeError in Hkey.
    tauto. }
  unfold __getitem__, try_except.
  destruct (getattr o key st') as [out st''] eqn:Hget.
  pose proof (getattr_state o key st') as Hst. rewrite Hget in Hst.
  simpl in Hkey', Hst. subst out st''. rewrite decide_True by done.
  unfold mbind, M_bind, _attributes, gets.
  rewrite dict_lookup, values_list_filter, Hrows. simpl.
  by rewrite Ha.
Qed.

(** C3: after the row write of [__setitem__], a fresh [__getitem__] of the
    same key returns the value written, for a key that [getattr] does not
    resolve on the owner and a table with at most one row of that name for
    the owner: the read rebuilds the snapshot from the table, which by then
    holds the row. *)
Theorem setitem_then_getitem (o : owner) (key value : string) (st : attr_state) :
  (getattr o key st).1 = Raise AttributeError →
  length (attributes_filter_name o key (table st)) ≤ 1 →
  let st' := (__setitem__ o key value st).2 in
  (∃ i a, attributes_filter_name o key (table st') = [(i, a)]
          ∧ Attribute.value a = value)
  ∧ __getitem__ o key st' = (Return (PyStr value), st').
Proof.
  intros Hkey Hone st'. split.
  - by apply setitem_one_row.
  - by apply getitem_after_setitem.
Qed.

(** C5: writing a key any number of times leaves exactly one row for the
    (owner, name) pair, with the value written last, when there was at most
    one such row to begin with; and a single write changes the table by
    updating the matching row in place when there is one, and by adding a
    row under a fresh key only when there is none. *)
Theorem setitem_each_one_row (o : owner) (key : string) (values : list string)
    (value : string) (st : attr_state) :
  length (attributes_filter_name o key (table st)) ≤ 1 →
  (∃ i a,
     attributes_filter_name o key
       (table (setitem_each o key (values ++ [value]) st)) = [(i, a)]
     ∧ Attribute.value a = value)
  ∧ table (__setitem__ o key value st).2 =
    match attributes_filter_name o key (table st) with
    | [] =>
        <[next_id (table st) :=
            Attribute.mk (Some (next_id (table st))) (owner_type o) (owner_pk o)
              key value]> (table st)
    | [(i, a)] =>
        <[i := Attribute.set_value value (Attribute.set_pk (Some i) a)]> (table st)
    | _ :: _ :: _ => table st
    end
  ∧ table st !! next_id (table st) = None.
Proof.
  intros Hone. split_and!.
  - unfold setitem_each. rewrite foldl_snoc.
    apply setitem_one_row, setitem_each_rows, Hone.
  - apply setitem_table.
  - apply next_id_fresh.
Qed.

(** C7: reading a key that [getattr] does not resolve on the owner and
    that names no attribute row of the owner raises [KeyError], and nothing
    else happens. *)
Theorem getitem_unknown_key (o : owner) (key : string) (st : attr_state) :
  (getattr o key st).1 = Raise AttributeError →
  attributes_filter_name o key (table st) = [] →
  __getitem__ o key st = (Raise KeyError, st).
Proof.
  intros Hkey Hrows. unfold __getitem__, try_except.
  destruct (getattr o key st) as [out st'] eqn:Hget.
  pose proof (getattr_state o key st) as Hst. rewrite Hget in Hst.
  simpl in Hkey, Hst. subst out st'. rewrite decide_True by done.
  unfold mbind, M_bind, _attributes, gets.
  by rewrite dict_lookup, values_list_filter, Hrows.
Qed.

(** C8: on an instance that has no [_attributes] entry of its own (the name
    is a method of the class), every [__setitem__] ends in an exception.
    With at most one row of that name for the owner, the row is written
    first (created or updated, carrying the new value) and the exception
    is the [AttributeError] of the final [del self._attributes]: the table
    has changed although the call failed. *)
Theorem setitem_raises_after_write (o : owner) (key value : string)
    (st : attr_state) :
  instance_dict st !! "_attributes" = None →
  (∃ e st', __setitem__ o key value st = (Raise e, st'))
  ∧ (length (attributes_filter_name o key (table st)) ≤ 1 →
     ∃ tbl' i a,
       __setitem__ o key value st
       = (Raise AttributeError, AttrState (instance_dict st) tbl')
       ∧ attributes_filter_name o key tbl' = [(i, a)]
       ∧ Attribute.value a = value).
Proof.
  intros Hdict.
  destruct (setitem_outcome o key value st) as [Hout Hinst].
  specialize (Hinst Hdict). rewrite Hdict in Hout.
  destruct (__setitem__ o key value st) as [out st'] eqn:Hset.
  simpl in Hout, Hinst. split.
  - destruct (attributes_filter_name o key (table st)) as [|? [|??]];
      subst out; eauto.
  - intros Hone.
    destruct (setitem_one_row o key value st Hone) as (i & a & Hrows & Ha).
    rewrite Hset in Hrows. simpl in Hrows.
    exists (table st'), i, a. split_and!; [|done..].
    destruct st' as [d tbl']. simpl in *. subst d. f_equal.
    destruct (attributes_filter_name o key (table st)) as [|? [|??]];
      [done..|simpl in Hone; lia].
Qed.

(** The statements above at the example owner. *)

Lemma setitem_then_getitem_witness :
  (getattr home "color" home_state).1 = Raise AttributeError
  ∧ length (attributes_filter_name home "color" (table home_state)) ≤ 1
  ∧ (let st' := (__setitem__ home "color" "red" home_state).2 in
     (∃ i a, attributes_filter_name home "color" (table st') = [(i, a)]
             ∧ Attribute.value a = "red")
     ∧ __getitem__ home "color" st' = (Return (PyStr "red"), st')).
Proof.
  split_and!; [by vm_compute|vm_compute; lia|].
  apply (setitem_then_getitem home "color" "red" home_state);
    [by vm_compute|vm_compute; lia].
Defined.

(** C3 as stated fails at the example owner: the write of ("title",
    "About") does not complete, it raises [AttributeError] once the row is
    stored; and the read that follows returns the owner's own [title]
    field, "Home", not the value written. *)
Lemma setitem_getitem_counterexample :
  (__setitem__ home "title" "About" home_state).1 = Raise AttributeError
  ∧ (__getitem__ home "title" (__setitem__ home "title" "About" home_state).2).1
    = Return (PyStr "Home")
  ∧ ¬ ((__setitem__ home "title" "About" home_state).1 = Return tt
       ∧ (__getitem__ home "title"
            (__setitem__ home "title" "About" home_state).2).1
         = Return (PyStr "About")).
Proof. split_and!; [by vm_compute..|]. by vm_compute; intros [? _]. Qed.

Lemma setitem_each_one_row_witness :
  length (attributes_filter_name home "color" (table home_state)) ≤ 1
  ∧ ∃ i a,
      attributes_filter_name home "color"
        (table (setitem_each home "color" (["red"; "green"] ++ ["blue"]) home_state))
      = [(i, a)]
      ∧ Attribute.value a = "blue".
Proof.
  split; [vm_compute; lia|].
  apply (setitem_each_one_row home "color" ["red"; "green"] "blue" home_state).
  vm_compute; lia.
Defined.

Lemma getitem_unknown_key_witness :
  (getattr home "color" home_state).1 = Raise AttributeError
  ∧ attributes_filter_name home "color" (table home_state) = []
  ∧ __getitem__ home "color" home_state = (Raise KeyError, home_state).
Proof.
  split_and!; [by vm_compute..|].
  apply (getitem_unknown_key home "color" home_state); by vm_compute.
Defined.

Lemma setitem_raises_after_write_witness :
  instance_dict home_state !! "_attributes" = None
  ∧ ∃ e st', __setitem__ home "color" "red" home_state = (Raise e, st').
Proof.
  split; [by vm_compute|].
  apply (setitem_raises_after_write home "color" "red" home_state).
  by vm_compute.
Defined.

(** The runs behind these statements. *)
Example setitem_color :
  __setitem__ home "color" "red" home_state
  = (Raise AttributeError,
     AttrState {["title" := PyStr "Home"]}
       {[1%Z := Attribute.mk (Some 1%Z) "pages.page" 7 "color" "red"]}).
Proof. by vm_compute. Qed.

Example setitem_color_twice :
  table (setitem_each home "color" ["red"; "blue"] home_state)
  = {[1%Z := Attribute.mk (Some 1%Z) "pages.page" 7 "color" "blue"]}.
Proof. by vm_compute. Qed.

(** * Further properties *)

(** ** Slugs in use *)

Lemma elem_of_slugs (rows : gmap Z Entity.t) (s : string) :
  s ∈ slugs rows ↔ filter_slug_exists rows s = true.
Proof.
  unfold slugs. rewrite list_elem_of_omap, filter_slug_exists_true. split.
  - intros (r & Hin & Hr). apply list_elem_of_fmap in Hin as ([i r'] & -> & Hin).
    apply elem_of_map_to_list in Hin. eauto.
  - intros (i & r & Hi & Hr). exists r. split; [|done].
    apply list_elem_of_fmap. exists (i, r). split; [done|].
    by apply elem_of_map_to_list.
Qed.

Lemma not_elem_of_slugs (rows : gmap Z Entity.t) (s : string) :
  s ∉ slugs rows ↔ filter_slug_exists rows s = false.
Proof. rewrite elem_of_slugs. apply not_true_iff_false. Qed.

Lemma slugs_insert_fresh (rows : gmap Z Entity.t) i e s :
  rows !! i = None → Entity.slug e = Some s →
  slugs (<[i := e]> rows) ≡ₚ s :: slugs rows.
Proof.
  intros Hi He. unfold slugs. rewrite map_to_list_insert by done.
  rewrite fmap_cons. simpl. by rewrite He.
Qed.

Section BaseSlugMixinFurther.
Variable slugify : string → string.

Lemma creatable_new_with_base e :
  creatable e = true →
  Entity.id e = None ∧ truthy_slug (Entity.slug e) = false
  ∧ ∃ sluggable, sluggable_of e = Bound (Some sluggable)
      ∧ new_with_base slugify (slugify sluggable) e = true.
Proof.
  unfold creatable, new_with_base. intros He.
  apply andb_true_iff in He as [[Hid Hslug]%andb_true_iff Hs].
  destruct (sluggable_of e) as [|[sluggable|]]; [done| |done].
  split_and!; [by apply bool_decide_eq_true in Hid|by apply negb_true_iff|].
  exists sluggable. split; [done|].
  by rewrite Hid, Hslug, bool_decide_eq_true_2.
Qed.

(** What [save] does to an object it gives a slug to. *)
Lemma save_creatable v e rows :
  creatable e = true →
  ∃ sluggable k,
    sluggable_of e = Bound (Some sluggable)
    ∧ k ≤ size rows
    ∧ (∀ j, j < k →
         filter_slug_exists rows (candidate (slugify sluggable) j) = true)
    ∧ filter_slug_exists rows (candidate (slugify sluggable) k) = false
    ∧ save slugify v (SlugState e rows)
      = (Return tt,
         SlugState
           (Entity.set_id (Some (next_id rows))
              (Entity.set_slug (Some (candidate (slugify sluggable) k)) e))
           (<[next_id rows :=
                Entity.set_id (Some (next_id rows))
                  (Entity.set_slug (Some (candidate (slugify sluggable) k)) e)]>
              rows)).
Proof.
  intros (_ & _ & sluggable & Hs & Hnew)%creatable_new_with_base.
  destruct (first_free_candidate (slugify sluggable) rows)
    as (k & Hk & Hlow & Hfree).
  exists sluggable, k. split_and!; [done..|].
  by apply (save_creates slugify v (slugify sluggable) e rows k).
Qed.

(** X1: when no row has the normalized string as its slug, [slugify_uniquely]
    returns it as it is, with no suffix. *)
Theorem slugify_uniquely_unused (rows : gmap Z Entity.t) (sluggable : string) :
  slugify sluggable ∉ slugs rows →
  slugify_uniquely slugify rows sluggable = Some (slugify sluggable).
Proof.
  intros Hfree%not_elem_of_slugs.
  apply (slugify_uniquely_first_free slugify rows sluggable 0); [lia|done].
Qed.

(** X2: [slugify_uniquely] returns the candidate of the smallest index that
    is not in use, and that index is at most the number of slugs in use:
    every candidate before it is in the table, so a gap left by a deleted
    row is taken again before a higher suffix is. *)
Theorem slugify_uniquely_first_unused (rows : gmap Z Entity.t)
    (sluggable : string) :
  ∃ k, k ≤ length (slugs rows)
    ∧ slugify_uniquely slugify rows sluggable
      = Some (candidate (slugify sluggable) k)
    ∧ (∀ j, j < k → candidate (slugify sluggable) j ∈ slugs rows)
    ∧ candidate (slugify sluggable) k ∉ slugs rows.
Proof.
  destruct (first_free_candidate (slugify sluggable) rows)
    as (k & _ & Hlow & Hfree).
  exists k. split_and!.
  - assert ((candidate (slugify sluggable) <$> seq 0 k) ⊆+ slugs rows) as Hsub.
    { apply NoDup_submseteq.
      - apply NoDup_fmap_2; [apply _|apply NoDup_seq].
      - intros s (j & -> & Hj%elem_of_seq)%list_elem_of_fmap.
        apply elem_of_slugs, Hlow. lia. }
    apply submseteq_length in Hsub. by rewrite length_fmap, length_seq in Hsub.
  - by apply slugify_uniquely_first_free.
  - intros j Hj. by apply elem_of_slugs, Hlow.
  - by apply not_elem_of_slugs.
Qed.

(** X3: saving an object that has no primary key and no slug, and a string
    for a title or name, returns normally under both mixins (the unique
    index of [SlugUniqueMixin] is never hit): the object gets a primary key
    no row had and a slug no row had, and the table is the old one with
    that one row added. *)
Theorem save_creatable_returns v (e : Entity.t) (rows : gmap Z Entity.t) :
  creatable e = true →
  ∃ slug e',
    save slugify v (SlugState e rows)
    = (Return tt, SlugState e' (<[next_id rows := e']> rows))
    ∧ e' = Entity.set_id (Some (next_id rows)) (Entity.set_slug (Some slug) e)
    ∧ rows !! next_id rows = None
    ∧ (slug ∉ slugs rows)
    ∧ slugs (<[next_id rows := e']> rows) ≡ₚ slug :: slugs rows.
Proof.
  intros (sluggable & k & _ & _ & _ & Hfree & Hsave)%(save_creatable v e rows).
  eexists _, _. split_and!; [exact Hsave|done|apply next_id_fresh| |].
  - by apply not_elem_of_slugs.
  - by apply slugs_insert_fresh; [apply next_id_fresh|].
Qed.

(** X4: creating objects one after the other keeps the slugs of a table
    pairwise distinct, whatever their titles and names normalize to: every
    [save] returns, each adds one row, and no slug occurs twice afterwards
    if none did before. *)
Theorem create_all_unique_slugs v (es : list Entity.t) (rows : gmap Z Entity.t) :
  forallb creatable es = true →
  NoDup (slugs rows) →
  (create_all slugify v es rows).1.*1 = replicate (length es) (Return tt)
  ∧ NoDup (slugs (create_all slugify v es rows).2)
  ∧ size (create_all slugify v es rows).2 = size rows + length es.
Proof.
  revert rows. induction es as [|e es IH]; intros rows Hes Hnodup.
  { split_and!; [done..|]. simpl. lia. }
  simpl in Hes. apply andb_true_iff in Hes as [He Hes]. simpl.
  destruct (save_creatable v e rows He)
    as (sluggable & k & _ & _ & _ & Hfree & ->).
  set (e' := Entity.set_id _ _). simpl.
  destruct (IH (<[next_id rows := e']> rows)) as (IHo & IHn & IHs); [done| |].
  { rewrite (slugs_insert_fresh _ _ _ (candidate (slugify sluggable) k))
      by (done || apply next_id_fresh).
    apply NoDup_cons. split; [by apply not_elem_of_slugs|done]. }
  destruct (create_all slugify v es _) as [rs rows']. simpl in *.
  split_and!; [by f_equal|done|].
  rewrite IHs, map_size_insert_None by apply next_id_fresh. lia.
Qed.

(** X5: a slug set by hand on a new object is stored as it is:
    [slugify_uniquely] is not called and the table is not consulted.  When
    a row already has that slug, [SlugMixin] stores a second row with it,
    so the slugs of the table are no longer distinct, and [SlugUniqueMixin]
    fails on the unique index with nothing stored. *)
Theorem save_preset_slug (e : Entity.t) (rows : gmap Z Entity.t) (s : string) :
  Entity.id e = None → Entity.slug e = Some s → s ≠ "" → s ∈ slugs rows →
  save slugify SlugMixin (SlugState e rows)
  = (Return tt,
     SlugState (Entity.set_id (Some (next_id rows)) e)
       (<[next_id rows := Entity.set_id (Some (next_id rows)) e]> rows))
  ∧ ¬ NoDup (slugs (<[next_id rows := Entity.set_id (Some (next_id rows)) e]> rows))
  ∧ save slugify SlugUniqueMixin (SlugState e rows)
    = (Raise IntegrityError, SlugState e rows).
Proof.
  intros Hid Hslug Hs Hin.
  assert (truthy_slug (Entity.slug e) = true) as Htruthy.
  { rewrite Hslug. by destruct s. }
  rewrite !save_guard_false by auto. unfold super_save. simpl.
  rewrite Hid. split_and!; [done| |].
  - rewrite (slugs_insert_fresh _ _ _ s) by (done || apply next_id_fresh).
    rewrite NoDup_cons. tauto.
  - assert (slug_collides rows e = true) as ->; [|done].
    unfold slug_collides. rewrite Hslug, Hid. apply existsb_exists.
    apply elem_of_slugs, filter_slug_exists_true in Hin as (i & r & Hi & Hr).
    exists (i, r). split.
    + by apply list_elem_of_In, elem_of_map_to_list.
    + by rewrite !bool_decide_eq_true_2.
Qed.
End BaseSlugMixinFurther.

Lemma slugify_uniquely_unused_witness :
  (slugify_ascii "Hello World" ∉ slugs pages)
  ∧ slugify_uniquely slugify_ascii pages "Hello World"
    = Some (slugify_ascii "Hello World").
Proof.
  assert (slugify_ascii "Hello World" ∉ slugs pages) as Hfree.
  { apply not_elem_of_slugs. by vm_compute. }
  split; [exact Hfree|].
  apply (slugify_uniquely_unused slugify_ascii pages "Hello World"), Hfree.
Defined.

Lemma save_creatable_returns_witness :
  creatable (new_page "About") = true
  ∧ ∃ slug e',
      save slugify_ascii SlugUniqueMixin (SlugState (new_page "About") pages)
      = (Return tt, SlugState e' (<[next_id pages := e']> pages))
      ∧ e' = Entity.set_id (Some (next_id pages))
               (Entity.set_slug (Some slug) (new_page "About"))
      ∧ pages !! next_id pages = None
      ∧ (slug ∉ slugs pages)
      ∧ slugs (<[next_id pages := e']> pages) ≡ₚ slug :: slugs pages.
Proof.
  split; [by vm_compute|].
  apply (save_creatable_returns slugify_ascii SlugUniqueMixin
           (new_page "About") pages).
  by vm_compute.
Defined.

Lemma create_all_unique_slugs_witness :
  forallb creatable (new_page "About" :: hello_pages) = true
  ∧ NoDup (slugs pages)
  ∧ NoDup (slugs (create_all slugify_ascii SlugMixin
                    (new_page "About" :: hello_pages) pages).2).
Proof.
  assert (NoDup (slugs pages)) as Hnodup.
  { unfold slugs, pages. rewrite map_to_list_singleton. apply NoDup_singleton. }
  split_and!; [by vm_compute|exact Hnodup|].
  apply (create_all_unique_slugs slugify_ascii SlugMixin
           (new_page "About" :: hello_pages) pages); [by vm_compute|exact Hnodup].
Defined.

Lemma save_preset_slug_witness :
  Entity.id preset_page = None ∧ Entity.slug preset_page = Some "about"
  ∧ "about" ≠ "" ∧ "about" ∈ slugs pages
  ∧ save slugify_ascii SlugUniqueMixin (SlugState preset_page pages)
    = (Raise IntegrityError, SlugState preset_page pages).
Proof.
  assert ("about" ∈ slugs pages) as Hin.
  { apply elem_of_slugs. by vm_compute. }
  split_and!; [reflexivity|reflexivity|done|exact Hin|].
  apply (save_preset_slug slugify_ascii preset_page pages "about");
    [reflexivity|reflexivity|done|exact Hin].
Defined.

(** The runs behind these statements. *)
Example create_all_after_about :
  Entity.slug <$> (create_all slugify_ascii SlugUniqueMixin
                     [new_page "About"; new_page "about"; new_page "About-2"]
                     pages_with_copy).1.*2
  = [Some "about-1"; Some "about-2"; Some "about-2-1"].
Proof. by vm_compute. Qed.

(** ** AttributeMixin, further *)

Lemma Permutation_short {A} (l k : list A) : l ≡ₚ k → length k ≤ 1 → l = k.
Proof.
  intros Hperm Hk. destruct k as [|x [|??]]; [| |simpl in Hk; lia].
  - by apply Permutation_nil_r.
  - by apply Permutation_singleton_r.
Qed.

Lemma getattr_instance_dict o key st st' :
  instance_dict st' !! key = instance_dict st !! key →
  (getattr o key st').1 = (getattr o key st).1.
Proof.
  unfold getattr. intros ->. destruct (instance_dict st !! key); [done|].
  destruct (class_dict o !! key); [done|].
  by destruct (AttributeMixin_dict !! key).
Qed.

(** A write touches no entry of the instance but [_attributes]. *)
Lemma setitem_instance_dict o key value st k :
  k ≠ "_attributes" →
  instance_dict (__setitem__ o key value st).2 !! k = instance_dict st !! k.
Proof.
  intros Hk.
  unfold __setitem__, mbind, M_bind, try_except, attributes_get, attr_save,
    delattr. simpl.
  destruct (attributes_filter_name o key (table st)) as [|[] [|??]]; simpl;
    [| |done];
    (destruct (instance_dict st !! "_attributes"); simpl;
     [by apply lookup_delete_ne|done]).
Qed.

(** The rows a write leaves for another owner or another name are those it
    found. *)
Lemma setitem_other_rows_Permutation o key value st o' key' :
  (owner_type o', owner_pk o') ≠ (owner_type o, owner_pk o) ∨ key' ≠ key →
  attributes_filter_name o' key' (table (__setitem__ o key value st).2)
  ≡ₚ attributes_filter_name o' key' (table st).
Proof.
  intros Hother.
  assert (∀ a, related o a → Attribute.name a = key →
               ¬ (related o' a ∧ Attribute.name a = key')) as Hmiss.
  { intros a [Hct Hid] Hname [[Hct' Hid'] Hname'].
    destruct Hother as [Ho|Hk]; [apply Ho|apply Hk]; congruence. }
  rewrite setitem_table.
  destruct (attributes_filter_name o key (table st)) as [|[i a] [|??]] eqn:Hrows;
    [| |done].
  - rewrite attributes_filter_name_insert, decide_False by by apply Hmiss.
    by rewrite delete_id by apply next_id_fresh.
  - assert ((i, a) ∈ attributes_filter_name o key (table st)) as Hin
      by (rewrite Hrows; apply list_elem_of_here).
    apply elem_of_attributes_filter_name in Hin as (Hi & Hrel & Hname).
    rewrite attributes_filter_name_insert, decide_False by by apply Hmiss.
    rewrite (attributes_filter_name_lookup o' key' (table st) i a Hi).
    by rewrite decide_False by by apply Hmiss.
Qed.

Lemma setitem_size_update o key value st i a :
  attributes_filter_name o key (table st) = [(i, a)] →
  size (table (__setitem__ o key value st).2) = size (table st).
Proof.
  intros Hrows. rewrite setitem_table, Hrows.
  assert ((i, a) ∈ attributes_filter_name o key (table st)) as Hin
    by (rewrite Hrows; apply list_elem_of_here).
  apply elem_of_attributes_filter_name in Hin as (Hi & _).
  by apply map_size_insert_Some.
Qed.

Lemma setitem_each_size_update o key values : ∀ st i a,
  attributes_filter_name o key (table st) = [(i, a)] →
  size (table (setitem_each o key values st)) = size (table st).
Proof.
  induction values as [|value values IH]; intros st i a Hrows; [done|].
  simpl.
  destruct (setitem_one_row o key value st) as (i' & a' & Hrows' & _);
    [by rewrite Hrows|].
  rewrite (IH _ i' a') by done. by eapply setitem_size_update.
Qed.

(** X6: a value written under a name that [getattr] resolves on the owner
    cannot be read back: the row is stored, but [__getitem__] keeps
    returning the owner's own attribute. *)
Theorem setitem_declared_key (o : owner) (key value : string) (v : pyval)
    (st : attr_state) :
  (getattr o key st).1 = Return v → key ≠ "_attributes" →
  (__getitem__ o key (__setitem__ o key value st).2).1 = Return v
  ∧ (length (attributes_filter_name o key (table st)) ≤ 1 →
     ∃ i a,
       attributes_filter_name o key (table (__setitem__ o key value st).2)
       = [(i, a)]
       ∧ Attribute.value a = value).
Proof.
  intros Hget Hkey. split; [|apply setitem_one_row].
  assert ((getattr o key (__setitem__ o key value st).2).1 = Return v) as Hget'.
  { rewrite <-Hget. by apply getattr_instance_dict, setitem_instance_dict. }
  unfold __getitem__, try_except.
  destruct (getattr o key (__setitem__ o key value st).2) as [out st'].
  simpl in Hget'. by subst out.
Qed.

(** X7: a write leaves the attributes of other owners, and the other
    attributes of the same owner, as they were: the rows of any other
    (owner, name) pair are the same, and so is what the snapshot gives for
    a name with at most one row. *)
Theorem setitem_other_rows (o : owner) (key value : string) (st : attr_state)
    (o' : owner) (key' : string) :
  (owner_type o', owner_pk o') ≠ (owner_type o, owner_pk o) ∨ key' ≠ key →
  attributes_filter_name o' key' (table (__setitem__ o key value st).2)
  ≡ₚ attributes_filter_name o' key' (table st)
  ∧ (length (attributes_filter_name o' key' (table st)) ≤ 1 →
     dict (values_list o' (table (__setitem__ o key value st).2)) !! key'
     = dict (values_list o' (table st)) !! key').
Proof.
  intros Hother.
  pose proof (setitem_other_rows_Permutation o key value st o' key' Hother)
    as Hperm.
  split; [done|]. intros Hone.
  by rewrite !dict_lookup, !values_list_filter, (Permutation_short _ _ Hperm).
Qed.

(** X8: when two or more rows of that name exist for the owner, a write
    raises [MultipleObjectsReturned] (only [DoesNotExist] is caught) and
    changes nothing: no row is updated or added. *)
Theorem setitem_multiple_rows (o : owner) (key value : string) (st : attr_state) :
  2 ≤ length (attributes_filter_name o key (table st)) →
  __setitem__ o key value st = (Raise MultipleObjectsReturned, st).
Proof.
  intros Hmany.
  unfold __setitem__, mbind, M_bind, try_except, attributes_get. simpl.
  by destruct (attributes_filter_name o key (table st)) as [|[] [|??]];
    [simpl in Hmany; lia..|].
Qed.

(** X9: writes of one name add at most one row to the table, however many
    there are: one when the owner had no row of that name and at least one
    value is written, none otherwise. *)
Theorem setitem_each_size (o : owner) (key : string) (values : list string)
    (st : attr_state) :
  length (attributes_filter_name o key (table st)) ≤ 1 →
  size (table (setitem_each o key values st))
  = match values, attributes_filter_name o key (table st) with
    | _ :: _, [] => S (size (table st))
    | _, _ => size (table st)
    end.
Proof.
  intros Hone. destruct values as [|value values]; [done|].
  simpl.
  destruct (setitem_one_row o key value st Hone) as (i' & a' & Hrows' & _).
  rewrite (setitem_each_size_update o key values _ i' a' Hrows').
  destruct (attributes_filter_name o key (table st)) as [|[i a] [|??]] eqn:Hrows;
    [| |simpl in Hone; lia].
  - rewrite setitem_table, Hrows.
    by apply map_size_insert_None, next_id_fresh.
  - by eapply setitem_size_update.
Qed.

(** X10: the snapshot [_attributes] builds holds the owner's rows and
    nothing else: a name it maps to a value is the name of a row of this
    owner with that value, and a name is missing exactly when the owner
    has no row of that name, whatever other owners have stored. *)
Theorem attributes_snapshot_lookup (o : owner) (st : attr_state) (key : string) :
  ∃ d, _attributes o st = (Return d, st)
    ∧ (∀ v, d !! key = Some v →
         ∃ i a, table st !! i = Some a ∧ related o a
                ∧ Attribute.name a = key ∧ Attribute.value a = v)
    ∧ (d !! key = None ↔ attributes_filter_name o key (table st) = []).
Proof.
  eexists. split_and!; [reflexivity| |].
  - intros v. rewrite dict_lookup, values_list_filter, fmap_last.
    destruct (last _) as [[i a]|] eqn:Hlast; [|done].
    intros [= <-]. apply last_Some_elem_of in Hlast.
    apply elem_of_attributes_filter_name in Hlast as (? & ? & ?).
    by exists i, a.
  - rewrite dict_lookup, values_list_filter, fmap_last, !fmap_None.
    apply last_None.
Qed.

Lemma setitem_declared_key_witness :
  (getattr home "title" home_state).1 = Return (PyStr "Home")
  ∧ "title" ≠ "_attributes"
  ∧ (__getitem__ home "title" (__setitem__ home "title" "About" home_state).2).1
    = Return (PyStr "Home").
Proof.
  split_and!; [by vm_compute|done|].
  apply (setitem_declared_key home "title" "About" (PyStr "Home") home_state);
    [by vm_compute|done].
Defined.

Lemma setitem_other_rows_witness :
  ((owner_type other_page, owner_pk other_page) ≠ (owner_type home, owner_pk home)
   ∨ "color" ≠ "color")
  ∧ attributes_filter_name other_page "color"
      (table (__setitem__ home "color" "blue" home_red).2)
    ≡ₚ attributes_filter_name other_page "color" (table home_red).
Proof.
  assert ((owner_type other_page, owner_pk other_page)
          ≠ (owner_type home, owner_pk home)) as Hne by (by vm_compute).
  split; [by left|].
  apply (setitem_other_rows home "color" "blue" home_red other_page "color").
  by left.
Defined.

Lemma setitem_multiple_rows_witness :
  2 ≤ length (attributes_filter_name home "color" (table home_twice))
  ∧ __setitem__ home "color" "green" home_twice
    = (Raise MultipleObjectsReturned, home_twice).
Proof.
  split; [vm_compute; lia|].
  apply (setitem_multiple_rows home "color" "green" home_twice).
  vm_compute; lia.
Defined.

Lemma setitem_each_size_witness :
  length (attributes_filter_name home "color" (table home_state)) ≤ 1
  ∧ size (table (setitem_each home "color" ["red"; "blue"] home_state))
    = match ["red"; "blue"],
            attributes_filter_name home "color" (table home_state) with
      | _ :: _, [] => S (size (table home_state))
      | _, _ => size (table home_state)
      end.
Proof.
  split; [vm_compute; lia|].
  apply (setitem_each_size home "color" ["red"; "blue"] home_state).
  vm_compute; lia.
Defined.

(** The runs behind these statements. *)
Example getitem_color_owners :
  (__getitem__ home "color" home_red).1 = Return (PyStr "red")
  ∧ (__getitem__ other_page "color" home_red).1 = Raise KeyError.
Proof. split; by vm_compute. Qed.

(** ** StartEndManager *)

(** [current] returns exactly the rows whose [start] and [end] are both
    set and enclose the clock reading, ends included. *)
Lemma current_lookup_Some now (rows : gmap Z Window.t) i r :
  current now rows !! i = Some r ↔
  rows !! i = Some r
  ∧ ∃ s e, Window.start r = Some s ∧ Window.end_ r = Some e ∧ (s ≤ now ≤ e)%Z.
Proof.
  unfold current. rewrite map_lookup_filter_Some. simpl.
  unfold start__lte, end__gte. split.
  - intros (Hi & Hs & He). split; [done|].
    destruct (Window.start r) as [s|]; [|done].
    destruct (Window.end_ r) as [e|]; [|done].
    exists s, e. split_and!; [done..|lia|lia].
  - intros (Hi & s & e & -> & -> & Hs & He). split_and!; [done|lia..].
Qed.

(** X11: a row with no [end] (an open-ended window, which both
    [StartEndMixin] and [StartEndBetaMixin] allow), with no [start], or
    whose [end] lies before its [start], is not current at any time. *)
Theorem current_never (rows : gmap Z Window.t) (i : Z) (r : Window.t) :
  rows !! i = Some r →
  Window.end_ r = None ∨ Window.start r = None
  ∨ (∃ s e, Window.start r = Some s ∧ Window.end_ r = Some e ∧ (e < s)%Z) →
  ∀ now, current now rows !! i = None.
Proof.
  intros Hi Hbad now.
  destruct (current now rows !! i) as [r'|] eqn:Hcur; [|done].
  apply current_lookup_Some in Hcur as (Hi' & s & e & Hs & He & Hnow).
  simplify_eq. destruct Hbad as [?|[?|(s' & e' & ? & ? & ?)]]; simplify_eq. lia.
Qed.

(** X12: the times at which a row is current form an interval: a row
    current at two readings of the clock is current at every reading in
    between. *)
Theorem current_between (rows : gmap Z Window.t) (i : Z) (t1 t t2 : Z) :
  (t1 ≤ t ≤ t2)%Z →
  is_Some (current t1 rows !! i) → is_Some (current t2 rows !! i) →
  current t rows !! i = rows !! i ∧ is_Some (rows !! i).
Proof.
  intros Ht [r1 H1] [r2 H2].
  apply current_lookup_Some in H1 as (Hi & s & e & Hs & He & Hnow1).
  apply current_lookup_Some in H2 as (Hi' & s' & e' & Hs' & He' & Hnow2).
  simplify_eq. rewrite Hi. split; [|by eexists].
  apply current_lookup_Some. split; [done|]. exists s, e.
  split_and!; [done..|lia|lia].
Qed.

Lemma current_never_witness :
  windows !! 2%Z = Some (Window.mk (Some 10%Z) None)
  ∧ Window.end_ (Window.mk (Some 10%Z) None) = None
  ∧ ∀ now, current now windows !! 2%Z = None.
Proof.
  split_and!; [by vm_compute|reflexivity|].
  apply (current_never windows 2%Z (Window.mk (Some 10%Z) None));
    [by vm_compute|by left].
Defined.

Lemma current_between_witness :
  (10 ≤ 15 ≤ 20)%Z
  ∧ is_Some (current 10 windows !! 1%Z) ∧ is_Some (current 20 windows !! 1%Z)
  ∧ current 15 windows !! 1%Z = windows !! 1%Z.
Proof.
  assert (is_Some (current 10 windows !! 1%Z)) as H1 by (by vm_compute; eexists).
  assert (is_Some (current 20 windows !! 1%Z)) as H2 by (by vm_compute; eexists).
  split_and!; [lia|lia|exact H1|exact H2|].
  apply (current_between windows 1%Z 10%Z 15%Z 20%Z); [lia|exact H1|exact H2].
Defined.

(** The runs behind these statements. *)
Example current_windows :
  current 15 windows = {[1%Z := Window.mk (Some 10%Z) (Some 20%Z)]}
  ∧ current 25 windows = ∅.
Proof. split; by vm_compute. Qed.

(** ** LinkURLMixin *)

(** What the call in the [try] block gives. *)
Lemma get_absolute_url_blank l db :
  Link.url l = "" →
  get_absolute_url l db =
  match content_object l db ≫= linked_get_absolute_url with
  | None | Some (Raise AttributeError) => (Return None, db)
  | Some out => (out, db)
  end.
Proof.
  intros Hurl. unfold get_absolute_url, try_except, mbind at 1, M_bind, gets,
    call_get_absolute_url. rewrite Hurl. simpl.
  destruct (content_object l db) as [[[out|]]|]; simpl; [|done..].
  by destruct out as [?|[]|].
Qed.

(** X13: a link with a URL of its own returns it, whatever it points at:
    the linked object is not looked up. *)
Theorem get_absolute_url_override (l : Link.t) (db : gmap (string * Z) linked) :
  Link.url l ≠ "" →
  get_absolute_url l db = (Return (Some (Link.url l)), db).
Proof.
  intros Hurl. unfold get_absolute_url.
  by destruct (Link.url l).
Qed.

(** X14: [get_absolute_url] never raises [AttributeError]: the one raised
    on a missing target or a missing method is caught, and so is one
    raised inside the target's own method. *)
Theorem get_absolute_url_no_AttributeError (l : Link.t)
    (db : gmap (string * Z) linked) :
  (get_absolute_url l db).1 ≠ Raise AttributeError.
Proof.
  destruct (decide (Link.url l = "")) as [Hurl|Hurl].
  - rewrite get_absolute_url_blank by done.
    by destruct (content_object l db ≫= linked_get_absolute_url)
      as [[?|[]|]|].
  - by rewrite get_absolute_url_override.
Qed.

(** X15: a link with no URL of its own whose target cannot give one
    (the type or the id is not set, no such object exists, or the object
    has no [get_absolute_url]) returns [None]. *)
Theorem get_absolute_url_dangling (l : Link.t) (db : gmap (string * Z) linked) :
  Link.url l = "" →
  content_object l db ≫= linked_get_absolute_url = None →
  get_absolute_url l db = (Return None, db).
Proof. intros Hurl Hnone. by rewrite get_absolute_url_blank, Hnone. Qed.

Lemma get_absolute_url_override_witness :
  Link.url link_external ≠ ""
  ∧ get_absolute_url link_external site
    = (Return (Some (Link.url link_external)), site).
Proof.
  split; [done|].
  by apply (get_absolute_url_override link_external site).
Defined.

Lemma get_absolute_url_dangling_witness :
  Link.url link_gone = ""
  ∧ content_object link_gone site ≫= linked_get_absolute_url = None
  ∧ get_absolute_url link_gone site = (Return None, site).
Proof.
  split_and!; [reflexivity|by vm_compute|].
  apply (get_absolute_url_dangling link_gone site); [reflexivity|by vm_compute].
Defined.

(** The runs behind these statements. *)
Example get_absolute_url_site :
  (get_absolute_url link_home site).1 = Return (Some "/pages/home/")
  ∧ (get_absolute_url link_user site).1 = Return None.
Proof. split; by vm_compute. Qed.
